(** * Adaptive-AUTOSAR: SOME/IP message model, SD client state machine,
      UDS service router and ara::core::Optional

A shallow embedding of the parts of the repository that the
specification talks about:

- [someip]  : src/ara/com/someip/someip_message.h
- [fsm]     : service_ready_state.cpp (ara::com::someip::sd::fsm)
- [routing] : uds_service_router.h / uds_service_router.cpp
- [core]    : src/ara/core/optional.h

Unsigned C++ integers are integers of [Z] together with their range;
byte vectors are [list Z] whose elements are 8-bit values. *)

From stdpp Require Import gmap strings list.
From Stdlib Require Import ZArith Lia.

(** ** Fixed-width unsigned integers *)

Definition uint8_max : Z := 255.
Definition uint16_max : Z := 65535.
Definition uint32_max : Z := 4294967295.

Definition is_uint8 (v : Z) : Prop := (0 <= v <= uint8_max)%Z.
Definition is_uint16 (v : Z) : Prop := (0 <= v <= uint16_max)%Z.
Definition is_uint32 (v : Z) : Prop := (0 <= v <= uint32_max)%Z.

(** Conversion to [std::uint8_t]: keep the low eight bits. *)
Definition to_uint8 (v : Z) : Z := Z.land v 255.

(** Reading a byte sequence as one big-endian (network order) number:
    the first byte is the most significant one. *)
Definition big_endian (bytes : list Z) : Z :=
  fold_left (fun acc b => (acc * 256 + b)%Z) bytes 0%Z.

(** ** SOME/IP messages *)

Module someip.
Local Open Scope Z_scope.

(** SOME/IP communication message type *)
Inductive SomeIpMessageType :=
| Request
| RequestNoReturn
| Notification
| Response
| Error
| TpRequest
| TpRequestNoReturn
| TpNotification
| TpResponse
| TpError.

(** The enumerators' underlying [std::uint8_t] values. *)
Definition SomeIpMessageType_value (t : SomeIpMessageType) : Z :=
  match t with
  | Request => 0x00
  | RequestNoReturn => 0x01
  | Notification => 0x02
  | Response => 0x80
  | Error => 0x81
  | TpRequest => 0x20
  | TpRequestNoReturn => 0x21
  | TpNotification => 0x22
  | TpResponse => 0xa0
  | TpError => 0xa1
  end.

(** SOME/IP communication message return code *)
Inductive SomeIpReturnCode :=
| eOK
| eNotOk
| eUnknownService
| eUnknownMethod
| eNotReady
| eNotReachable
| eTimeout
| eWrongProtocolVersion
| eWrongInterfaceVersion
| eMalformedMessage
| eWrongMessageType
| eE2eRepeated
| eE2eWrongSequnece
| eE2e
| eE2eNotAvailable
| eE2eNoNewData.

(** The enumerators' underlying values: none is given explicitly, so they
    count up from zero in declaration order. *)
Definition SomeIpReturnCode_value (c : SomeIpReturnCode) : Z :=
  match c with
  | eOK => 0
  | eNotOk => 1
  | eUnknownService => 2
  | eUnknownMethod => 3
  | eNotReady => 4
  | eNotReachable => 5
  | eTimeout => 6
  | eWrongProtocolVersion => 7
  | eWrongInterfaceVersion => 8
  | eMalformedMessage => 9
  | eWrongMessageType => 10
  | eE2eRepeated => 11
  | eE2eWrongSequnece => 12
  | eE2e => 13
  | eE2eNotAvailable => 14
  | eE2eNoNewData => 15
  end.

(** The private data members of [SomeIpMessage]. *)
Record SomeIpMessage := {
  mMessageId : Z;
  mClientId : Z;
  mSessionId : Z;
  mProtocolVersion : Z;
  mInterfaceVersion : Z;
  mMessageType : SomeIpMessageType;
  mReturnCode : SomeIpReturnCode
}.

(** Every member holds a value of its declared width. *)
Definition well_formed (m : SomeIpMessage) : Prop :=
  is_uint32 (mMessageId m) /\ is_uint16 (mClientId m) /\
  is_uint16 (mSessionId m) /\ is_uint8 (mProtocolVersion m) /\
  is_uint8 (mInterfaceVersion m).

Definition MessageId (m : SomeIpMessage) : Z := mMessageId m.
Definition ClientId (m : SomeIpMessage) : Z := mClientId m.
Definition SessionId (m : SomeIpMessage) : Z := mSessionId m.
Definition ProtocolVersion (m : SomeIpMessage) : Z := mProtocolVersion m.
Definition InterfaceVersion (m : SomeIpMessage) : Z := mInterfaceVersion m.
Definition MessageType (m : SomeIpMessage) : SomeIpMessageType := mMessageType m.
Definition ReturnCode (m : SomeIpMessage) : SomeIpReturnCode := mReturnCode m.

(** Modelled from the spec: the body of [SomeIpMessage::SetSessionId] is in
    someip_message.cpp, which is not among the sources; the header declares
    it as "Set a new session ID" and the specification as replacing the
    active session identifier. *)
Definition SetSessionId (m : SomeIpMessage) (sessionId : Z) : SomeIpMessage :=
  {| mMessageId := mMessageId m;
     mClientId := mClientId m;
     mSessionId := sessionId;
     mProtocolVersion := mProtocolVersion m;
     mInterfaceVersion := mInterfaceVersion m;
     mMessageType := mMessageType m;
     mReturnCode := mReturnCode m |}.

(** Modelled from the spec: the body of [SomeIpMessage::IncrementSessionId]
    is in someip_message.cpp, which is not among the sources.  The header
    documents "Increment the session ID by one", "True if the session ID is
    wrappered; otherwise false" and "In the case of wrapping, session ID
    will start from 1"; the specification: advance the counter by one, on
    overflow past the maximum 16-bit value wrap to 1, and return whether a
    wrap occurred.  The result pairs the updated message with the returned
    flag. *)
Definition IncrementSessionId (m : SomeIpMessage) : SomeIpMessage * bool :=
  let next := mSessionId m + 1 in
  if uint16_max <? next
  then (SetSessionId m 1, true)
  else (SetSessionId m next, false).

(** Modelled from the spec: the bodies of both [SomeIpMessage::Inject]
    overloads are in someip_message.cpp, which is not among the sources.
    The specification: append the value to a growable byte sequence in
    big-endian (network) byte order.  Each byte is obtained by shifting the
    value, never by reading its object representation, so the host byte
    order plays no role. *)
Definition Inject_u16 (vector : list Z) (value : Z) : list Z :=
  vector ++ [to_uint8 (Z.shiftr value 8); to_uint8 value].

Definition Inject_u32 (vector : list Z) (value : Z) : list Z :=
  vector ++ [to_uint8 (Z.shiftr value 24); to_uint8 (Z.shiftr value 16);
             to_uint8 (Z.shiftr value 8); to_uint8 value].

(** Modelled from the spec: [SomeIpMessage::Concat] (body not among the
    sources) appends the second sequence to the first one. *)
Definition Concat (vector1 vector2 : list Z) : list Z := vector1 ++ vector2.

End someip.

(** ** SOME/IP service discovery: the client state machine *)

Module fsm.
Local Open Scope Z_scope.

(** [helper::SdClientState]: the enumerators that service_ready_state.cpp
    names. *)
Inductive SdClientState :=
| Stopped
| InitialWaitPhase
| ServiceSeen
| ServiceReady.

#[export] Instance SdClientState_eq_dec : EqDecision SdClientState.
Proof. solve_decision. Defined.

(** The callable registered on the timer:
    [std::bind(&ServiceReadyState::onTimerExpired, this)]. *)
Inductive Callback :=
| ReadyState_onTimerExpired.

(** Modelled from the spec: [helper::TtlTimer] is not among the sources.
    The specification's lease timer is a single-shot, resettable,
    cancellable countdown with one expiration callback: [Reset ttl]
    restarts the countdown at a new duration, [Cancel] stops it without
    firing, and the callback is registered and unregistered separately. *)
Record TtlTimer := {
  mCountdown : option Z;          (* [Some ttl]: running, started at [ttl] *)
  mOnExpired : option Callback    (* the registered expiration callback *)
}.

(** Modelled from the spec: [TtlTimer::Reset] restarts the countdown at the
    new duration. *)
Definition TtlTimer_Reset (ttl : Z) (t : TtlTimer) : TtlTimer :=
  {| mCountdown := Some ttl; mOnExpired := mOnExpired t |}.

(** Modelled from the spec: [TtlTimer::Cancel] stops the countdown without
    firing. *)
Definition TtlTimer_Cancel (t : TtlTimer) : TtlTimer :=
  {| mCountdown := None; mOnExpired := mOnExpired t |}.

(** Modelled from the spec: [TtlTimer::SetExpirationCallback] registers
    the handler invoked on natural expiry. *)
Definition TtlTimer_SetExpirationCallback (cb : Callback) (t : TtlTimer) : TtlTimer :=
  {| mCountdown := mCountdown t; mOnExpired := Some cb |}.

(** Modelled from the spec: [TtlTimer::ResetExpirationCallback]
    unregisters the handler. *)
Definition TtlTimer_ResetExpirationCallback (t : TtlTimer) : TtlTimer :=
  {| mCountdown := mCountdown t; mOnExpired := None |}.

Definition running (t : TtlTimer) : bool :=
  match mCountdown t with Some _ => true | None => false end.

(** Everything a [ServiceReadyState] reaches through its members: its own
    two flags, the timer behind [Timer], the condition variable behind
    [mConditionVariable] (the number of [notify_one] calls so far), and the
    finite state machine it is registered at (the current state). *)
Record Machine := {
  mCurrentState : SdClientState;
  Timer : TtlTimer;
  mNotifications : nat;
  mActivated : bool;
  mClientRequested : bool;
  mReadyStateAlive : bool    (* [false] once [~ServiceReadyState] has run *)
}.

(** A member function returning [void] is a state transformer. *)
Definition Cmd : Type := Machine -> Machine.

Definition seq (c1 c2 : Cmd) : Cmd := fun m => c2 (c1 m).
Definition skip : Cmd := fun m => m.
Definition cond (test : Machine -> bool) (c1 c2 : Cmd) : Cmd :=
  fun m => if test m then c1 m else c2 m.

Declare Scope cmd_scope.
Delimit Scope cmd_scope with cmd.
Bind Scope cmd_scope with Cmd.
Notation "c1 ;; c2" := (seq c1 c2)
  (at level 100, c2 at level 200, right associativity) : cmd_scope.
Local Open Scope cmd_scope.

Definition set_mCurrentState (s : SdClientState) : Cmd := fun m =>
  {| mCurrentState := s; Timer := Timer m;
     mNotifications := mNotifications m; mActivated := mActivated m;
     mClientRequested := mClientRequested m;
     mReadyStateAlive := mReadyStateAlive m |}.

Definition on_Timer (f : TtlTimer -> TtlTimer) : Cmd := fun m =>
  {| mCurrentState := mCurrentState m; Timer := f (Timer m);
     mNotifications := mNotifications m; mActivated := mActivated m;
     mClientRequested := mClientRequested m;
     mReadyStateAlive := mReadyStateAlive m |}.

Definition notify_one : Cmd := fun m =>
  {| mCurrentState := mCurrentState m; Timer := Timer m;
     mNotifications := S (mNotifications m); mActivated := mActivated m;
     mClientRequested := mClientRequested m;
     mReadyStateAlive := mReadyStateAlive m |}.

Definition set_mActivated (b : bool) : Cmd := fun m =>
  {| mCurrentState := mCurrentState m; Timer := Timer m;
     mNotifications := mNotifications m; mActivated := b;
     mClientRequested := mClientRequested m;
     mReadyStateAlive := mReadyStateAlive m |}.

Definition set_mClientRequested (b : bool) : Cmd := fun m =>
  {| mCurrentState := mCurrentState m; Timer := Timer m;
     mNotifications := mNotifications m; mActivated := mActivated m;
     mClientRequested := b;
     mReadyStateAlive := mReadyStateAlive m |}.

Definition release_ReadyState : Cmd := fun m =>
  {| mCurrentState := mCurrentState m; Timer := Timer m;
     mNotifications := mNotifications m; mActivated := mActivated m;
     mClientRequested := mClientRequested m;
     mReadyStateAlive := false |}.

(** Modelled from the spec: the classes of the states other than
    [ServiceReady] are not among the sources.  Per the specification the
    lease timer runs in [ServiceReady] only: entering [InitialWaitPhase]
    ("cancel timer; service considered lost") or [Stopped] ("cancel timer;
    terminal until restarted") cancels it, and so does entering
    [ServiceSeen], where an offer is tracked "without paying for a running
    timer".  The entry in [ServiceReady] is [ServiceReadyState.Activate]
    below; no transition that starts at [ServiceReadyState] ends there. *)
Definition Activate_other (state previousState : SdClientState) : Cmd :=
  match state with
  | Stopped => on_Timer TtlTimer_Cancel
  | InitialWaitPhase => on_Timer TtlTimer_Cancel
  | ServiceSeen => on_Timer TtlTimer_Cancel
  | ServiceReady => skip
  end.

(** Modelled from the spec: leaving one of the states whose class is not
    among the sources; the specification lists no exit action for them. *)
Definition Deactivate_other (state nextState : SdClientState) : Cmd := skip.

Module ServiceReadyState.

(** The flags as the constructor's member initialisers set them, in a
    machine that starts in [Stopped], the specification's initial state. *)
Definition construct (ttlTimer : TtlTimer) : Machine :=
  {| mCurrentState := Stopped; Timer := ttlTimer; mNotifications := 0;
     mActivated := false; mClientRequested := true;
     mReadyStateAlive := true |}.

Definition Deactivate (nextState : SdClientState) : Cmd :=
  on_Timer TtlTimer_ResetExpirationCallback ;;
  set_mClientRequested true ;;
  set_mActivated false.

(** Modelled from the spec: [MachineState::Transit] and the finite state
    machine behind it are not among the sources.  Per the specification a
    transition leaves the current state (its [Deactivate]), makes the
    next state current and enters it (its [Activate], told the previous
    state).  [ServiceReadyState] only ever names the three other states
    as the next one. *)
Definition Transit (nextState : SdClientState) : Cmd :=
  Deactivate nextState ;;
  set_mCurrentState nextState ;;
  Activate_other nextState ServiceReady.

Definition onTimerExpired : Cmd :=
  Transit InitialWaitPhase.

Definition Activate (previousState : SdClientState) : Cmd :=
  set_mActivated true ;;
  cond (fun m => negb (mClientRequested m))
    (Transit ServiceSeen)
    skip ;;
  notify_one ;;
  on_Timer (TtlTimer_SetExpirationCallback ReadyState_onTimerExpired).

Definition ServiceNotRequested : Cmd :=
  cond mActivated
    (Transit ServiceSeen)
    (set_mClientRequested false).

Definition ServiceOffered (ttl : Z) : Cmd :=
  on_Timer (TtlTimer_Reset ttl).

Definition ServiceStopped : Cmd :=
  on_Timer TtlTimer_Cancel ;;
  Transit Stopped.

(** [~ServiceReadyState]: the body runs, then the object is gone. *)
Definition destruct : Cmd :=
  on_Timer TtlTimer_ResetExpirationCallback ;;
  release_ReadyState.

End ServiceReadyState.

(** Modelled from the spec: entering a state of the machine.  Only the
    class of [ServiceReady] is among the sources. *)
Definition Activate (state previousState : SdClientState) : Cmd :=
  match state with
  | ServiceReady => ServiceReadyState.Activate previousState
  | _ => Activate_other state previousState
  end.

(** Modelled from the spec: [MachineState::Transit] called by one of the
    states whose class is not among the sources. *)
Definition Transit_other (self nextState : SdClientState) : Cmd :=
  Deactivate_other self nextState ;;
  set_mCurrentState nextState ;;
  Activate nextState self.

(** Modelled from the spec: the offer handler of [InitialWaitPhase] is not
    among the sources.  Transition table: "offer received, client
    requested: ServiceReady; start lease timer at offer TTL; wake any
    waiter" and "offer received, client not requested: ServiceSeen; no
    timer started".  The request flag is a member of [ServiceReadyState],
    whose [Activate] is the code that forwards an unrequested offer
    to [ServiceSeen] and wakes the waiter. *)
Definition InitialWaitPhase_ServiceOffered (ttl : Z) : Cmd :=
  cond mClientRequested
    (on_Timer (TtlTimer_Reset ttl))
    skip ;;
  Transit_other InitialWaitPhase ServiceReady.

(** Modelled from the spec: the withdrawal handlers of [InitialWaitPhase]
    and [ServiceSeen] are not among the sources.  Transition table:
    "service explicitly withdrawn: Stopped; cancel timer; terminal until
    restarted". *)
Definition InitialWaitPhase_ServiceStopped : Cmd :=
  on_Timer TtlTimer_Cancel ;;
  Transit_other InitialWaitPhase Stopped.

(** Modelled from the spec: the same transition table row, for
    [ServiceSeen]. *)
Definition ServiceSeen_ServiceStopped : Cmd :=
  on_Timer TtlTimer_Cancel ;;
  Transit_other ServiceSeen Stopped.

(** Modelled from the spec: delivery of the event "service explicitly
    withdrawn" to the current state; the dispatching client is not among
    the sources.  [Stopped] is terminal until restarted. *)
Definition ServiceStopped : Cmd := fun m =>
  match mCurrentState m with
  | ServiceReady => ServiceReadyState.ServiceStopped m
  | ServiceSeen => ServiceSeen_ServiceStopped m
  | InitialWaitPhase => InitialWaitPhase_ServiceStopped m
  | Stopped => m
  end.

(** The specification's invariant: the lease timer is running if and only
    if the state is [ServiceReady]. *)
Definition timer_runs_iff_ready (m : Machine) : Prop :=
  running (Timer m) = true <-> mCurrentState m = ServiceReady.

(** What an event coming from the timer leads to: the machine goes on, or
    the registered callback is invoked on a [ServiceReadyState] that no
    longer exists. *)
Inductive Outcome :=
| Fine (m : Machine)
| UseAfterFree.

Definition invoke (cb : Callback) : Cmd :=
  match cb with
  | ReadyState_onTimerExpired => ServiceReadyState.onTimerExpired
  end.

(** Modelled from the spec: natural expiry of [helper::TtlTimer], which is
    not among the sources.  The timer is single-shot: a running countdown
    ends, and the registered handler, if any, is invoked; a timer that is
    not running (never started, or cancelled) does not fire. *)
Definition TimerExpired (m : Machine) : Outcome :=
  match mCountdown (Timer m) with
  | None => Fine m
  | Some _ =>
      let stopped := on_Timer TtlTimer_Cancel m in
      match mOnExpired (Timer m) with
      | None => Fine stopped
      | Some cb =>
          if mReadyStateAlive m then Fine (invoke cb stopped)
          else UseAfterFree
      end
  end.

(** What can still happen to the timer once the [ServiceReadyState] is
    gone: its other holders restart or cancel it, or it expires. *)
Inductive TimerEvent :=
| Expires
| Restarted (ttl : Z)
| Cancelled.

Definition timer_event (e : TimerEvent) (m : Machine) : Outcome :=
  match e with
  | Expires => TimerExpired m
  | Restarted ttl => Fine (on_Timer (TtlTimer_Reset ttl) m)
  | Cancelled => Fine (on_Timer TtlTimer_Cancel m)
  end.

Fixpoint timer_events (es : list TimerEvent) (m : Machine) : Outcome :=
  match es with
  | [] => Fine m
  | e :: es' =>
      match timer_event e m with
      | Fine m' => timer_events es' m'
      | UseAfterFree => UseAfterFree
      end
  end.

End fsm.

(** ** UDS request routing *)

Module routing.
Local Open Scope Z_scope.

(** [ara::diag::OperationOutput]; [Route] writes its [responseData]. *)
Record OperationOutput := {
  responseData : list Z
}.

(** A [std::future<T>] as the caller receives it: its shared state already
    holds the value, or it is still to be satisfied by whoever holds the
    promise. *)
Inductive future (T : Type) :=
| Ready (value : T)
| Pending (sharedState : positive).
Arguments Ready {T} value.
Arguments Pending {T} sharedState.

(** The interface [RoutableUdsService] as the router uses it.  A call of
    [HandleMessage] may change the service object and the [MetaInfo] it
    gets by reference; it returns the future. *)
Class RoutableUdsService (Service MetaInfo CancellationHandler : Type) := {
  IsOffered : Service -> bool;
  HandleMessage :
    Service -> list Z -> MetaInfo -> CancellationHandler ->
    Service * MetaInfo * future OperationOutput
}.

Definition cNegativeResponseSid : Z := 0x7f.
Definition cServiceNotSupportedNrc : Z := 0x11.

(** The router's data members.  The map holds non-owning pointers: the
    service objects live in a store of their own, keyed by address. *)
Record UdsServiceRouter (InstanceSpecifier : Type) := {
  mServices : gmap Z positive;
  mSpecifier : InstanceSpecifier
}.
Arguments mServices {InstanceSpecifier} _.
Arguments mSpecifier {InstanceSpecifier} _.

(** The state after a call of [Route] and the value it returns. *)
Record Routed (InstanceSpecifier Service MetaInfo : Type) := {
  router_after : UdsServiceRouter InstanceSpecifier;
  objects_after : gmap positive Service;
  metaInfo_after : MetaInfo;
  returned : future OperationOutput
}.
Arguments router_after {InstanceSpecifier Service MetaInfo} _.
Arguments objects_after {InstanceSpecifier Service MetaInfo} _.
Arguments metaInfo_after {InstanceSpecifier Service MetaInfo} _.
Arguments returned {InstanceSpecifier Service MetaInfo} _.

Section Route.
Context {InstanceSpecifier Service MetaInfo CancellationHandler : Type}.
Context `{!RoutableUdsService Service MetaInfo CancellationHandler}.

(** The [else] branch: a promise is made, its future taken and the
    promise satisfied at once, so the future returned is ready. *)
Definition negative_response (sid : Z) : future OperationOutput :=
  let _operationOutput :=
    {| responseData :=
         [cNegativeResponseSid; sid; cServiceNotSupportedNrc] |} in
  Ready _operationOutput.

(** [None]: the map holds a pointer to no live object, and calling
    through it has no defined behaviour. *)
Definition Route
    (self : UdsServiceRouter InstanceSpecifier)
    (objects : gmap positive Service)
    (sid : Z) (requestData : list Z) (metaInfo : MetaInfo)
    (cancellationHandler : CancellationHandler)
  : option (Routed InstanceSpecifier Service MetaInfo) :=
  let unchanged (r : future OperationOutput) :=
    {| router_after := self; objects_after := objects;
       metaInfo_after := metaInfo; returned := r |} in
  match mServices self !! sid with
  | Some service =>
      match objects !! service with
      | Some object =>
          if IsOffered object then
            let '(object', metaInfo', _result) :=
              HandleMessage object requestData metaInfo cancellationHandler in
            Some {| router_after := self;
                    objects_after := <[service := object']> objects;
                    metaInfo_after := metaInfo';
                    returned := _result |}
          else Some (unchanged (negative_response sid))
      | None => None
      end
  | None => Some (unchanged (negative_response sid))
  end.

(** Every pointer in the map points to a live service object. *)
Definition registry_valid
    (self : UdsServiceRouter InstanceSpecifier)
    (objects : gmap positive Service) : Prop :=
  forall sid service,
    mServices self !! sid = Some service -> is_Some (objects !! service).

End Route.

(** [UdsServiceRouter(specifier)]: the reference is bound and the map is
    default-constructed, that is empty. *)
Definition construct {InstanceSpecifier : Type} (specifier : InstanceSpecifier)
  : UdsServiceRouter InstanceSpecifier :=
  {| mServices := ∅; mSpecifier := specifier |}.

End routing.

(** ** ara::core::Optional *)

Module core.

Inductive exception :=
| runtime_error (what : string).

(** How a call of a member function that returns a [T] ends: with a value,
    with an exception, or by reaching the closing brace without a [return]
    statement, after which the behaviour is undefined. *)
Inductive call (A : Type) :=
| Returns (value : A)
| Throws (e : exception)
| FlowsOffTheEnd.
Arguments Returns {A} value.
Arguments Throws {A} e.
Arguments FlowsOffTheEnd {A}.

Record Optional (T : Type) := {
  mValue : T;
  mHasValue : bool
}.
Arguments mValue {T} _.
Arguments mHasValue {T} _.

Section Optional.
Context {T : Type}.

(** [Optional()]: [mValue] is default-initialised. *)
Definition Optional_empty (default_T : T) : Optional T :=
  {| mValue := default_T; mHasValue := false |}.

(** [Optional(const T &)] and [Optional(T &&)]. *)
Definition Optional_of (value : T) : Optional T :=
  {| mValue := value; mHasValue := true |}.

Definition Emplace (self : Optional T) (value : T) : Optional T :=
  {| mValue := value; mHasValue := true |}.

Definition Reset (self : Optional T) : Optional T :=
  {| mValue := mValue self; mHasValue := false |}.

Definition HasValue (self : Optional T) : bool := mHasValue self.

Definition no_value : exception :=
  runtime_error "Optional contains no value.".

(** [operator*() const &] and [operator*() &&] *)
Definition operator_star (self : Optional T) : call T :=
  if mHasValue self then Returns (mValue self)
  else Throws no_value.

(** [operator->() const]: with a value the body evaluates [&mValue;] as
    an expression statement and returns nothing. *)
Definition operator_arrow (self : Optional T) : call T :=
  if mHasValue self then FlowsOffTheEnd
  else Throws no_value.

(** [Value() const &] and [Value() &&] *)
Definition Value (self : Optional T) : call T :=
  if mHasValue self then Returns (mValue self)
  else Throws no_value.

Definition ValueOr (self : Optional T) (defaultValue : T) : T :=
  if mHasValue self then mValue self
  else defaultValue.

End Optional.

(** How a call of a [noexcept] function ends: an exception that would leave
    it ends the program instead. *)
Inductive noexcept_call (A : Type) :=
| Completes (value : A)
| Terminates
| Undefined.
Arguments Completes {A} value.
Arguments Terminates {A}.
Arguments Undefined {A}.

(** A call made inside a [noexcept] function. *)
Definition in_noexcept {A B : Type}
    (c : call A) (k : A -> noexcept_call B) : noexcept_call B :=
  match c with
  | Returns value => k value
  | Throws _ => Terminates
  | FlowsOffTheEnd => Undefined
  end.

Section OptionalMembers.
Context {T : Type}.

(** What the class template needs of [T]: the value a default-initialised
    [T] has, the state a [T] is left in once it has been moved from, the
    conversion of a [bool] to [T], and [T]'s own [==] and [!=]. *)
Variable default_T : T.
Variable moved_from : T -> T.
Variable T_of_bool : bool -> T.
Variable T_eq T_ne : T -> T -> bool.

(** [Optional(const Optional &other)] *)
Definition Optional_copy (other : Optional T) : Optional T :=
  {| mValue := if mHasValue other then mValue other else default_T;
     mHasValue := mHasValue other |}.

(** [Optional(Optional &&other)]: the new object, and [other] afterwards. *)
Definition Optional_move (other : Optional T) : Optional T * Optional T :=
  ({| mValue := if mHasValue other then mValue other else default_T;
      mHasValue := mHasValue other |},
   {| mValue := if mHasValue other then moved_from (mValue other)
                else mValue other;
      mHasValue := mHasValue other |}).

(** [operator=(const Optional &other)]: the right-hand sides are
    [other.mHasValue] and [mHasValue], as written. *)
Definition assign_copy (self other : Optional T) : Optional T :=
  {| mValue := if mHasValue other then T_of_bool (mHasValue other)
               else mValue self;
     mHasValue := mHasValue self |}.

(** [operator=(Optional &&other)]: moving from the [bool] leaves [other]
    as it was. *)
Definition assign_move (self other : Optional T) : Optional T * Optional T :=
  ({| mValue := if mHasValue other then T_of_bool (mHasValue other)
                else mValue self;
      mHasValue := mHasValue self |},
   other).

(** [operator=(const U &value)] and [operator=(U &&value)], with
    [static_cast<T>] as [cast]. *)
Definition assign_value {U : Type} (cast : U -> T)
    (self : Optional T) (value : U) : Optional T :=
  {| mValue := cast value; mHasValue := true |}.

(** [Swap(Optional &other)]: [self] and [other] afterwards. *)
Definition Swap (self other : Optional T) : Optional T * Optional T :=
  if mHasValue self && mHasValue other then
    ({| mValue := mValue other; mHasValue := mHasValue self |},
     {| mValue := mValue self; mHasValue := mHasValue other |})
  else if mHasValue self && negb (mHasValue other) then
    ({| mValue := moved_from (mValue self); mHasValue := false |},
     {| mValue := mValue self; mHasValue := true |})
  else if negb (mHasValue self) && mHasValue other then
    ({| mValue := mValue other; mHasValue := true |},
     {| mValue := moved_from (mValue other); mHasValue := false |})
  else (self, other).

(** [explicit operator bool() const] *)
Definition operator_bool (self : Optional T) : bool := mHasValue self.

(** [operator==(const Optional<T> &, const Optional<T> &) noexcept] *)
Definition operator_eq (lhs rhs : Optional T) : noexcept_call bool :=
  if HasValue lhs && HasValue rhs then
    in_noexcept (Value lhs) (fun l =>
    in_noexcept (Value rhs) (fun r =>
    Completes (T_eq l r)))
  else if negb (HasValue lhs) && negb (HasValue rhs) then
    Completes true
  else
    Completes false.

(** [operator!=(const Optional<T> &, const Optional<T> &) noexcept] *)
Definition operator_ne (lhs rhs : Optional T) : noexcept_call bool :=
  if HasValue lhs && HasValue rhs then
    in_noexcept (Value lhs) (fun l =>
    in_noexcept (Value rhs) (fun r =>
    Completes (T_ne l r)))
  else if negb (HasValue lhs) && negb (HasValue rhs) then
    Completes false
  else
    Completes true.

End OptionalMembers.

End core.

(** ** Concrete inputs *)

Module inputs.
Import someip.
Local Open Scope Z_scope.

(** A request whose session identifier is [sessionId]. *)
Definition request (sessionId : Z) : SomeIpMessage :=
  {| mMessageId := 0x00010002; mClientId := 0x0003;
     mSessionId := sessionId; mProtocolVersion := 1;
     mInterfaceVersion := 1; mMessageType := Request;
     mReturnCode := eOK |}.

Import fsm.

Definition idle_timer : TtlTimer :=
  {| mCountdown := None; mOnExpired := None |}.

(** A machine that waits for an offer, its client asking for the service. *)
Definition waiting : Machine :=
  set_mCurrentState InitialWaitPhase (ServiceReadyState.construct idle_timer).

(** The same, after the client has said it does not need the service. *)
Definition waiting_unrequested : Machine :=
  ServiceReadyState.ServiceNotRequested waiting.

(** The service was offered for 30 seconds and the client asked for it. *)
Definition ready : Machine :=
  InitialWaitPhase_ServiceOffered 30 waiting.

(** The client stopped asking for a service that was ready. *)
Definition seen : Machine :=
  ServiceReadyState.ServiceNotRequested ready.

Import routing.

(** A service that counts the requests it handled and answers each with
    the positive response to its first byte. *)
Record EchoService := {
  offered : bool;
  handled : nat
}.

#[global] Instance EchoService_routable : RoutableUdsService EchoService nat unit := {|
  IsOffered := offered;
  HandleMessage := fun self requestData metaInfo _ =>
    ({| offered := offered self; handled := S (handled self) |},
     S metaInfo,
     Ready {| responseData := (hd 0 requestData + 0x40) :: tl requestData |})
|}.

(** SID 0x10 is served by the object at address 1, which is offered; SID
    0x27 by the object at address 2, which is not. *)
Definition router : UdsServiceRouter string :=
  {| mServices := <[0x10 := 1%positive]> (<[0x27 := 2%positive]> ∅);
     mSpecifier := "Diag/Router" |}.

Definition objects : gmap positive EchoService :=
  <[1%positive := {| offered := true; handled := 0 |}]>
    (<[2%positive := {| offered := false; handled := 0 |}]> ∅).

End inputs.

(** * Properties *)

(** ** Bytes *)

Lemma to_uint8_mod v : to_uint8 v = (v mod 256)%Z.
Proof. unfold to_uint8. change 255%Z with (Z.ones 8). by rewrite Z.land_ones. Qed.

Lemma to_uint8_range v : is_uint8 (to_uint8 v).
Proof.
  rewrite to_uint8_mod. unfold is_uint8, uint8_max.
  pose proof (Z.mod_pos_bound v 256). lia.
Qed.

Lemma to_uint8_shiftr v (n : Z) :
  (0 <= n)%Z -> to_uint8 (Z.shiftr v n) = ((v / 2 ^ n) mod 256)%Z.
Proof. intros Hn. by rewrite to_uint8_mod, Z.shiftr_div_pow2. Qed.

(** ** SOME/IP messages *)

Section SomeIpMessage.
Import someip.
Local Open Scope Z_scope.

Lemma IncrementSessionId_fields (m : SomeIpMessage) :
  let m' := (IncrementSessionId m).1 in
  MessageId m' = MessageId m /\ ClientId m' = ClientId m /\
  ProtocolVersion m' = ProtocolVersion m /\
  InterfaceVersion m' = InterfaceVersion m /\
  MessageType m' = MessageType m /\ ReturnCode m' = ReturnCode m.
Proof.
  unfold IncrementSessionId. by destruct (uint16_max <? mSessionId m + 1).
Qed.

(** C3: incrementing a session identifier [v] with [1 <= v < 65535] gives
    [v + 1] and reports no wrap; incrementing 65535 gives 1 and reports a
    wrap; after an increment the session identifier is never 0. *)
Theorem IncrementSessionId_wraps_to_one (m : SomeIpMessage) :
  is_uint16 (SessionId m) ->
  let after := SessionId (IncrementSessionId m).1 in
  let wrapped := (IncrementSessionId m).2 in
  (1 <= SessionId m < 65535 -> after = SessionId m + 1 /\ wrapped = false) /\
  (SessionId m = 65535 -> after = 1 /\ wrapped = true) /\
  after <> 0.
Proof.
  unfold is_uint16, SessionId, IncrementSessionId, uint16_max.
  intros Hrange. cbv zeta.
  destruct (Z.ltb_spec 65535 (mSessionId m + 1)) as [Hwrap | Hstay]; cbn.
  - repeat split; intros; try lia; done.
  - repeat split; intros; lia.
Qed.

Lemma IncrementSessionId_wraps_to_one_witness :
  is_uint16 (SessionId (inputs.request 65535)) /\
  SessionId (IncrementSessionId (inputs.request 65535)).1 = 1 /\
  (IncrementSessionId (inputs.request 65535)).2 = true /\
  SessionId (IncrementSessionId (inputs.request 41)).1 = 42 /\
  (IncrementSessionId (inputs.request 41)).2 = false.
Proof.
  assert (H1 : is_uint16 (SessionId (inputs.request 65535))).
  { unfold is_uint16, uint16_max. simpl. lia. }
  assert (H2 : is_uint16 (SessionId (inputs.request 41))).
  { unfold is_uint16, uint16_max. simpl. lia. }
  destruct (IncrementSessionId_wraps_to_one _ H1) as (_ & Hlast & _).
  destruct (IncrementSessionId_wraps_to_one _ H2) as (Hmid & _ & _).
  split; [exact H1 |].
  destruct (Hlast eq_refl) as [-> ->].
  destruct Hmid as [-> ->]; [simpl; lia |].
  repeat split.
Defined.

Lemma big_endian_2 (hi lo : Z) : big_endian [hi; lo] = hi * 256 + lo.
Proof. unfold big_endian. simpl. lia. Qed.

Lemma big_endian_4 (b3 b2 b1 b0 : Z) :
  big_endian [b3; b2; b1; b0] = b3 * 2 ^ 24 + b2 * 2 ^ 16 + b1 * 2 ^ 8 + b0.
Proof. unfold big_endian. simpl. lia. Qed.

Lemma split_u16 (v : Z) :
  is_uint16 v -> ((v / 2 ^ 8) mod 256) * 256 + v mod 256 = v.
Proof.
  unfold is_uint16, uint16_max. intros Hv.
  change (2 ^ 8) with 256.
  rewrite (Z.mod_small (v / 256) 256).
  - pose proof (Z.div_mod v 256). lia.
  - split; [apply Z.div_pos; lia | apply Z.div_lt_upper_bound; lia].
Qed.

Lemma split_u32 (v : Z) :
  is_uint32 v ->
  ((v / 2 ^ 24) mod 256) * 2 ^ 24 + ((v / 2 ^ 16) mod 256) * 2 ^ 16 +
  ((v / 2 ^ 8) mod 256) * 2 ^ 8 + v mod 256 = v.
Proof.
  unfold is_uint32, uint32_max. intros Hv.
  change (2 ^ 24) with 16777216. change (2 ^ 16) with 65536.
  change (2 ^ 8) with 256.
  Z.div_mod_to_equations. lia.
Qed.

(** C6: injecting a 16-bit value appends its two bytes, most significant
    first: read as a big-endian number they give the value back, and 0x1234
    is appended as 0x12 then 0x34; the 32-bit overload appends the four
    bytes most significant first likewise. *)
Theorem Inject_big_endian (vector : list Z) (value16 value32 : Z) :
  is_uint16 value16 -> is_uint32 value32 ->
  (exists hi lo,
      Inject_u16 vector value16 = vector ++ [hi; lo] /\
      is_uint8 hi /\ is_uint8 lo /\ big_endian [hi; lo] = value16) /\
  (exists b3 b2 b1 b0,
      Inject_u32 vector value32 = vector ++ [b3; b2; b1; b0] /\
      Forall is_uint8 [b3; b2; b1; b0] /\
      big_endian [b3; b2; b1; b0] = value32) /\
  Inject_u16 vector 0x1234 = vector ++ [0x12; 0x34] /\
  Inject_u32 vector 0x12345678 = vector ++ [0x12; 0x34; 0x56; 0x78].
Proof.
  intros H16 H32. repeat split.
  - exists (to_uint8 (Z.shiftr value16 8)), (to_uint8 value16).
    repeat split; try apply to_uint8_range.
    rewrite big_endian_2, to_uint8_shiftr, to_uint8_mod by lia.
    by apply split_u16.
  - exists (to_uint8 (Z.shiftr value32 24)), (to_uint8 (Z.shiftr value32 16)),
      (to_uint8 (Z.shiftr value32 8)), (to_uint8 value32).
    split; [done |]. split.
    + repeat constructor; apply to_uint8_range.
    + rewrite big_endian_4, !to_uint8_shiftr, to_uint8_mod by lia.
      by apply split_u32.
Qed.

Lemma Inject_big_endian_witness :
  is_uint16 0xBEEF /\ is_uint32 0xDEADBEEF /\
  Inject_u16 [0x01] 0x1234 = [0x01; 0x12; 0x34] /\
  Inject_u32 [0x01] 0x12345678 = [0x01; 0x12; 0x34; 0x56; 0x78].
Proof.
  assert (H16 : is_uint16 0xBEEF) by (unfold is_uint16, uint16_max; lia).
  assert (H32 : is_uint32 0xDEADBEEF) by (unfold is_uint32, uint32_max; lia).
  destruct (Inject_big_endian [0x01] _ _ H16 H32) as (_ & _ & E16 & E32).
  exact (conj H16 (conj H32 (conj E16 E32))).
Defined.

End SomeIpMessage.

(** ** The service discovery client state machine *)

Section ClientStateMachine.
Import fsm.
Local Open Scope Z_scope.

(** Expose the state transformer a member function stands for. *)
Ltac unfold_cmd :=
  unfold InitialWaitPhase_ServiceOffered, InitialWaitPhase_ServiceStopped,
    ServiceSeen_ServiceStopped, Transit_other, Activate,
    ServiceReadyState.Activate, ServiceReadyState.ServiceNotRequested,
    ServiceReadyState.ServiceStopped, ServiceReadyState.onTimerExpired,
    ServiceReadyState.Transit, ServiceReadyState.Deactivate,
    Deactivate_other, seq, cond, skip in *;
  cbn in *.

(** Whatever the flags are, [Activate] ends by registering the callback. *)
Lemma Activate_registers_callback (previousState : SdClientState) (m : Machine) :
  mOnExpired (Timer (ServiceReadyState.Activate previousState m)) =
  Some ReadyState_onTimerExpired.
Proof. done. Qed.

Lemma Activate_requested (previousState : SdClientState) (m : Machine) :
  mClientRequested m = true ->
  mCurrentState (ServiceReadyState.Activate previousState m) = mCurrentState m /\
  mActivated (ServiceReadyState.Activate previousState m) = true /\
  mNotifications (ServiceReadyState.Activate previousState m) = S (mNotifications m).
Proof.
  intros Hreq. unfold_cmd. repeat (rewrite Hreq; cbn). done.
Qed.

Lemma Activate_unrequested (previousState : SdClientState) (m : Machine) :
  mClientRequested m = false ->
  mCurrentState (ServiceReadyState.Activate previousState m) = ServiceSeen /\
  mCountdown (Timer (ServiceReadyState.Activate previousState m)) = None.
Proof.
  intros Hreq. unfold_cmd. repeat (rewrite Hreq; cbn). done.
Qed.

Lemma Deactivate_clears (nextState : SdClientState) (m : Machine) :
  let m' := ServiceReadyState.Deactivate nextState m in
  mOnExpired (Timer m') = None /\ mClientRequested m' = true /\
  mActivated m' = false /\ mCurrentState m' = mCurrentState m /\
  mCountdown (Timer m') = mCountdown (Timer m).
Proof. done. Qed.

Lemma Transit_state (nextState : SdClientState) (m : Machine) :
  mCurrentState (ServiceReadyState.Transit nextState m) = nextState /\
  mOnExpired (Timer (ServiceReadyState.Transit nextState m)) = None.
Proof. by destruct nextState. Qed.

Lemma offer_requested (ttl : Z) (m : Machine) :
  mClientRequested m = true ->
  let m' := InitialWaitPhase_ServiceOffered ttl m in
  mCurrentState m' = ServiceReady /\ mCountdown (Timer m') = Some ttl /\
  mOnExpired (Timer m') = Some ReadyState_onTimerExpired.
Proof.
  intros Hreq. unfold_cmd. repeat (rewrite Hreq; cbn). done.
Qed.

Lemma offer_unrequested (ttl : Z) (m : Machine) :
  mClientRequested m = false ->
  let m' := InitialWaitPhase_ServiceOffered ttl m in
  mCurrentState m' = ServiceSeen /\
  mCountdown (Timer m') = None /\
  mOnExpired (Timer m') = Some ReadyState_onTimerExpired.
Proof.
  intros Hreq. unfold_cmd. repeat (rewrite Hreq; cbn). done.
Qed.

(** The handlers of [ServiceReadyState] and the offer in InitialWaitPhase
    keep the timer running exactly in ServiceReady. *)
Lemma renewed_offer_keeps_timer (ttl : Z) (m : Machine) :
  mCurrentState m = ServiceReady ->
  timer_runs_iff_ready (ServiceReadyState.ServiceOffered ttl m) /\
  mCurrentState (ServiceReadyState.ServiceOffered ttl m) = ServiceReady /\
  mCountdown (Timer (ServiceReadyState.ServiceOffered ttl m)) = Some ttl.
Proof. intros Hstate. unfold timer_runs_iff_ready. by repeat split. Qed.

Lemma ServiceNotRequested_keeps_timer (m : Machine) :
  timer_runs_iff_ready m ->
  timer_runs_iff_ready (ServiceReadyState.ServiceNotRequested m).
Proof.
  unfold timer_runs_iff_ready. intros Hinv. unfold_cmd.
  destruct (mActivated m); cbn; [| exact Hinv].
  split; discriminate.
Qed.

Lemma offer_keeps_timer (ttl : Z) (m : Machine) :
  timer_runs_iff_ready (InitialWaitPhase_ServiceOffered ttl m).
Proof.
  unfold timer_runs_iff_ready.
  destruct (mClientRequested m) eqn:Hreq.
  - destruct (offer_requested ttl m Hreq) as (-> & Hcountdown & _).
    unfold running. by rewrite Hcountdown.
  - destruct (offer_unrequested ttl m Hreq) as (-> & Hcountdown & _).
    unfold running. rewrite Hcountdown. split; discriminate.
Qed.

(** C2: an offer received in InitialWaitPhase while the client does not
    request the service should end in ServiceSeen with no running timer and
    no expiration callback registered.  The offer is what
    [ServiceReadyState::Activate] makes of it: the machine does end in
    ServiceSeen and the timer is not started, but [Activate] goes on after
    its [Transit(ServiceSeen)], wakes the waiter and registers its expiration
    callback on the timer, so that the callback is registered in a state
    other than ServiceReady. *)
Theorem unrequested_offer_registers_callback (m : Machine) (ttl : Z) :
  mCurrentState m = InitialWaitPhase ->
  mClientRequested m = false ->
  let m' := InitialWaitPhase_ServiceOffered ttl m in
  m' = ServiceReadyState.Activate InitialWaitPhase
         (set_mCurrentState ServiceReady m) /\
  mCurrentState m' = ServiceSeen /\
  running (Timer m') = false /\
  mOnExpired (Timer m') = Some ReadyState_onTimerExpired /\
  mNotifications m' = S (mNotifications m).
Proof.
  intros Hstate Hreq m'.
  destruct (offer_unrequested ttl m Hreq) as (Hseen & Hcountdown & Hcallback).
  split.
  - subst m'. unfold InitialWaitPhase_ServiceOffered, seq, cond.
    by rewrite Hreq.
  - split; [exact Hseen |]. split; [| split; [exact Hcallback |]].
    + unfold running. subst m'. by rewrite Hcountdown.
    + subst m'. unfold_cmd. repeat (rewrite Hreq; cbn). done.
Qed.

Lemma unrequested_offer_registers_callback_witness :
  let m := inputs.waiting_unrequested in
  let m' := InitialWaitPhase_ServiceOffered 30 m in
  (mCurrentState m = InitialWaitPhase /\ mClientRequested m = false /\
   running (Timer m) = false /\ mOnExpired (Timer m) = None) /\
  mCurrentState m' = ServiceSeen /\
  running (Timer m') = false /\
  mOnExpired (Timer m') = Some ReadyState_onTimerExpired.
Proof.
  intros m m'.
  destruct (unrequested_offer_registers_callback m 30 eq_refl eq_refl)
    as (_ & Hseen & Hrunning & Hcallback & _).
  split; [by repeat split |].
  split; [exact Hseen |]. split; [exact Hrunning | exact Hcallback].
Defined.

(** C4: in ServiceReady, when the running lease timer expires and fires the
    registered expiration callback, the machine ends in InitialWaitPhase and
    no expiration callback remains registered on the timer. *)
Theorem expiry_in_ServiceReady (m : Machine) (ttl : Z) :
  mCurrentState m = ServiceReady ->
  mReadyStateAlive m = true ->
  mCountdown (Timer m) = Some ttl ->
  mOnExpired (Timer m) = Some ReadyState_onTimerExpired ->
  exists m',
    TimerExpired m = Fine m' /\
    mCurrentState m' = InitialWaitPhase /\
    mOnExpired (Timer m') = None /\
    running (Timer m') = false.
Proof.
  intros Hstate Halive Hrun Hcb.
  exists (ServiceReadyState.onTimerExpired (on_Timer TtlTimer_Cancel m)).
  split; [| done].
  unfold TimerExpired. by rewrite Hrun, Hcb, Halive.
Qed.

Lemma expiry_in_ServiceReady_witness :
  mCurrentState inputs.ready = ServiceReady /\
  mReadyStateAlive inputs.ready = true /\
  mCountdown (Timer inputs.ready) = Some 30 /\
  mOnExpired (Timer inputs.ready) = Some ReadyState_onTimerExpired /\
  exists m',
    TimerExpired inputs.ready = Fine m' /\
    mCurrentState m' = InitialWaitPhase /\
    mOnExpired (Timer m') = None /\
    running (Timer m') = false.
Proof.
  repeat (split; [reflexivity |]).
  apply (expiry_in_ServiceReady inputs.ready 30); reflexivity.
Defined.

(** With no callback registered, nothing the timer does reaches the
    state object or moves the machine. *)
Lemma timer_events_unregistered (es : list TimerEvent) (m : Machine) :
  mOnExpired (Timer m) = None ->
  exists m',
    timer_events es m = Fine m' /\
    mOnExpired (Timer m') = None /\
    mCurrentState m' = mCurrentState m /\
    mNotifications m' = mNotifications m.
Proof.
  revert m. induction es as [| e es IH]; intros m Hnone.
  - by exists m.
  - destruct e as [| ttl |]; cbn [timer_events timer_event].
    + unfold TimerExpired. rewrite Hnone.
      destruct (mCountdown (Timer m)) as [ttl |]; [| by apply IH].
      destruct (IH (on_Timer TtlTimer_Cancel m) Hnone) as (m' & ? & ? & ? & ?).
      by exists m'.
    + destruct (IH (on_Timer (TtlTimer_Reset ttl) m) Hnone) as (m' & ? & ? & ? & ?).
      by exists m'.
    + destruct (IH (on_Timer TtlTimer_Cancel m) Hnone) as (m' & ? & ? & ? & ?).
      by exists m'.
Qed.

(** Were the state object released with its callback still registered, the
    next expiry would call into it. *)
Example release_without_unregistering :
  TimerExpired (release_ReadyState inputs.ready) = UseAfterFree.
Proof. reflexivity. Qed.

(** C7: destroying the state object of a machine in ServiceReady unregisters
    its expiration callback before the object is released; whatever the
    timer does afterwards (expiring, being restarted or cancelled), no
    callback is registered and none is invoked on the destroyed object. *)
Theorem destruct_unregisters_callback (m : Machine) (es : list TimerEvent) :
  mCurrentState m = ServiceReady ->
  let destroyed := ServiceReadyState.destruct m in
  mOnExpired (Timer destroyed) = None /\
  mReadyStateAlive destroyed = false /\
  exists m',
    timer_events es destroyed = Fine m' /\
    mOnExpired (Timer m') = None /\
    mCurrentState m' = ServiceReady /\
    mNotifications m' = mNotifications m.
Proof.
  intros Hstate destroyed. repeat split.
  destruct (timer_events_unregistered es destroyed eq_refl)
    as (m' & Hrun & Hnone & Hsame & Hquiet).
  exists m'. by rewrite <- Hstate.
Qed.

Lemma destruct_unregisters_callback_witness :
  mCurrentState inputs.ready = ServiceReady /\
  mOnExpired (Timer inputs.ready) = Some ReadyState_onTimerExpired /\
  mOnExpired (Timer (ServiceReadyState.destruct inputs.ready)) = None /\
  exists m',
    timer_events [Expires; Restarted 5; Expires]
      (ServiceReadyState.destruct inputs.ready) = Fine m' /\
    mOnExpired (Timer m') = None.
Proof.
  destruct (destruct_unregisters_callback inputs.ready
              [Expires; Restarted 5; Expires] eq_refl)
    as (Hnone & _ & m' & Hrun & Hnone' & _).
  split; [reflexivity |]. split; [reflexivity |]. split; [exact Hnone |].
  exists m'. exact (conj Hrun Hnone').
Defined.

(** C8: in each of ServiceReady, ServiceSeen and InitialWaitPhase the event
    "service explicitly withdrawn" cancels the lease timer and takes the
    machine to Stopped, where a further withdrawal changes nothing; so
    Stopped is reached from every other state by this event. *)
Theorem ServiceStopped_reaches_Stopped (m : Machine) :
  mCurrentState m <> Stopped ->
  mCurrentState (ServiceStopped m) = Stopped /\
  running (Timer (ServiceStopped m)) = false /\
  ServiceStopped (ServiceStopped m) = ServiceStopped m.
Proof.
  intros Hstate.
  assert (mCurrentState (ServiceStopped m) = Stopped /\
          running (Timer (ServiceStopped m)) = false) as [Hstopped Hidle].
  { unfold ServiceStopped. by destruct (mCurrentState m). }
  split; [exact Hstopped |]. split; [exact Hidle |].
  unfold ServiceStopped at 1. by rewrite Hstopped.
Qed.

Lemma ServiceStopped_reaches_Stopped_witness :
  (mCurrentState inputs.ready = ServiceReady /\
   running (Timer inputs.ready) = true /\
   mCurrentState (ServiceStopped inputs.ready) = Stopped /\
   running (Timer (ServiceStopped inputs.ready)) = false) /\
  (mCurrentState inputs.seen = ServiceSeen /\
   mCurrentState (ServiceStopped inputs.seen) = Stopped /\
   running (Timer (ServiceStopped inputs.seen)) = false) /\
  (mCurrentState inputs.waiting = InitialWaitPhase /\
   mCurrentState (ServiceStopped inputs.waiting) = Stopped /\
   running (Timer (ServiceStopped inputs.waiting)) = false).
Proof.
  assert (Hready : mCurrentState inputs.ready <> Stopped) by discriminate.
  assert (Hseen : mCurrentState inputs.seen <> Stopped) by discriminate.
  assert (Hwaiting : mCurrentState inputs.waiting <> Stopped) by discriminate.
  destruct (ServiceStopped_reaches_Stopped _ Hready) as (R1 & R2 & _).
  destruct (ServiceStopped_reaches_Stopped _ Hseen) as (S1 & S2 & _).
  destruct (ServiceStopped_reaches_Stopped _ Hwaiting) as (W1 & W2 & _).
  exact (conj (conj eq_refl (conj eq_refl (conj R1 R2)))
           (conj (conj eq_refl (conj S1 S2)) (conj eq_refl (conj W1 W2)))).
Defined.

End ClientStateMachine.

(** ** The UDS service router *)

Section UdsServiceRouter.
Import routing.
Local Open Scope Z_scope.
Context {InstanceSpecifier Service MetaInfo CancellationHandler : Type}.
Context `{!RoutableUdsService Service MetaInfo CancellationHandler}.

Implicit Types (self : UdsServiceRouter InstanceSpecifier).
Implicit Types (objects : gmap positive Service).
Implicit Types (sid : Z) (requestData : list Z) (metaInfo : MetaInfo).
Implicit Types (cancellationHandler : CancellationHandler).

Lemma negative_response_bytes sid :
  negative_response sid = Ready {| responseData := [0x7F; sid; 0x11] |}.
Proof. reflexivity. Qed.

(** [Route] never writes to the router itself. *)
Lemma Route_router_after
    self objects sid requestData metaInfo cancellationHandler routed :
  Route self objects sid requestData metaInfo cancellationHandler = Some routed ->
  router_after routed = self.
Proof.
  unfold Route. intros Hroute.
  destruct (mServices self !! sid) as [service |]; [| by simplify_eq].
  destruct (objects !! service) as [object |]; [| done].
  destruct (IsOffered object); [| by simplify_eq].
  destruct (HandleMessage object requestData metaInfo cancellationHandler)
    as [[object' metaInfo'] _result].
  by simplify_eq.
Qed.

(** The call is defined as soon as the pointer it follows, if any, is
    valid. *)
Lemma Route_defined
    self objects sid requestData metaInfo cancellationHandler :
  (forall service,
      mServices self !! sid = Some service -> is_Some (objects !! service)) ->
  is_Some (Route self objects sid requestData metaInfo cancellationHandler).
Proof.
  intros Hvalid. unfold Route.
  destruct (mServices self !! sid) as [service |] eqn:Hfind; [| done].
  destruct (Hvalid service eq_refl) as [object ->].
  destruct (IsOffered object); [| done].
  by destruct (HandleMessage object requestData metaInfo cancellationHandler)
    as [[object' metaInfo'] _result].
Qed.

(** A call replaces at most the object it forwarded to, in place. *)
Lemma Route_objects_after
    self objects sid requestData metaInfo cancellationHandler routed :
  Route self objects sid requestData metaInfo cancellationHandler = Some routed ->
  dom (objects_after routed) = dom objects.
Proof.
  unfold Route. intros Hroute.
  destruct (mServices self !! sid) as [service |]; [| by simplify_eq].
  destruct (objects !! service) as [object |] eqn:Hobject; [| done].
  destruct (IsOffered object); [| by simplify_eq].
  destruct (HandleMessage object requestData metaInfo cancellationHandler)
    as [[object' metaInfo'] _result].
  simplify_eq. cbn. rewrite dom_insert_L.
  apply subseteq_union_1_L, singleton_subseteq_l.
  by apply elem_of_dom_2 in Hobject.
Qed.

(** C1: for a SID that is not in the service map, and for a SID that is but
    whose service is not offered, [Route] returns a future that is already
    completed and whose response is exactly the three bytes
    [0x7F, sid, 0x11]; nothing else changes. *)
Theorem Route_negative_response
    self objects sid requestData metaInfo cancellationHandler :
  (mServices self !! sid = None \/
   exists service object,
     mServices self !! sid = Some service /\
     objects !! service = Some object /\
     IsOffered object = false) ->
  Route self objects sid requestData metaInfo cancellationHandler =
  Some {| router_after := self; objects_after := objects;
          metaInfo_after := metaInfo;
          returned := Ready {| responseData := [0x7F; sid; 0x11] |} |}.
Proof.
  unfold Route.
  intros [Hfind | (service & object & Hfind & Hobject & Hoffered)].
  - by rewrite Hfind.
  - by rewrite Hfind, Hobject, Hoffered.
Qed.

(** C5: for a SID in the service map whose service is offered, [Route]
    returns the very future that the service's [HandleMessage] returns for
    the same request bytes, metadata and cancellation handler. *)
Theorem Route_forwards
    self objects sid requestData metaInfo cancellationHandler service object :
  mServices self !! sid = Some service ->
  objects !! service = Some object ->
  IsOffered object = true ->
  let handled :=
    HandleMessage object requestData metaInfo cancellationHandler in
  exists routed,
    Route self objects sid requestData metaInfo cancellationHandler = Some routed /\
    returned routed = handled.2 /\
    metaInfo_after routed = handled.1.2 /\
    objects_after routed = <[service := handled.1.1]> objects /\
    router_after routed = self.
Proof.
  intros Hfind Hobject Hoffered handled. unfold Route.
  rewrite Hfind, Hobject, Hoffered. subst handled.
  destruct (HandleMessage object requestData metaInfo cancellationHandler)
    as [[object' metaInfo'] _result].
  eexists. split; [reflexivity |]. done.
Qed.

(** The pointers of the map stay valid across a call. *)
Lemma Route_keeps_valid
    self objects sid requestData metaInfo cancellationHandler routed :
  registry_valid self objects ->
  Route self objects sid requestData metaInfo cancellationHandler = Some routed ->
  registry_valid (router_after routed) (objects_after routed).
Proof.
  intros Hvalid Hroute sid' service.
  rewrite (Route_router_after _ _ _ _ _ _ _ Hroute). intros Hfind.
  apply (elem_of_dom (D := gset positive)).
  rewrite (Route_objects_after _ _ _ _ _ _ _ Hroute).
  apply elem_of_dom. by eapply Hvalid.
Qed.

(** C10: a call of [Route] leaves the service map as it was: the same SIDs
    are registered and each maps to the same service as before, whatever the
    SID and whether or not the service is offered. *)
Theorem Route_keeps_registry
    self objects sid requestData metaInfo cancellationHandler :
  (forall service,
      mServices self !! sid = Some service -> is_Some (objects !! service)) ->
  exists routed,
    Route self objects sid requestData metaInfo cancellationHandler = Some routed /\
    mServices (router_after routed) = mServices self /\
    dom (mServices (router_after routed)) = dom (mServices self) /\
    (forall sid', mServices (router_after routed) !! sid' = mServices self !! sid').
Proof.
  intros Hvalid.
  destruct (Route_defined self objects sid requestData metaInfo
              cancellationHandler Hvalid) as [routed Hroute].
  exists routed. split; [exact Hroute |].
  rewrite (Route_router_after _ _ _ _ _ _ _ Hroute).
  by repeat split.
Qed.

End UdsServiceRouter.

Section UdsServiceRouterExamples.
Import routing.
Local Open Scope Z_scope.

Lemma inputs_valid : registry_valid inputs.router inputs.objects.
Proof.
  intros sid service. unfold inputs.router, inputs.objects. cbn.
  intros Hfind.
  destruct (decide (sid = 0x10)) as [-> |].
  - rewrite lookup_insert_eq in Hfind. by simplify_eq.
  - rewrite lookup_insert_ne in Hfind by done.
    destruct (decide (sid = 0x27)) as [-> |].
    + rewrite lookup_insert_eq in Hfind. by simplify_eq.
    + by rewrite lookup_insert_ne in Hfind.
Qed.

Lemma Route_negative_response_witness :
  (mServices inputs.router !! 0x3E = None /\
   Route inputs.router inputs.objects 0x3E [0x3E; 0x00] 0%nat tt =
     Some {| router_after := inputs.router; objects_after := inputs.objects;
             metaInfo_after := 0%nat;
             returned := Ready {| responseData := [0x7F; 0x3E; 0x11] |} |}) /\
  (mServices inputs.router !! 0x27 = Some 2%positive /\
   IsOffered <$> inputs.objects !! 2%positive = Some false /\
   Route inputs.router inputs.objects 0x27 [0x27; 0x01] 0%nat tt =
     Some {| router_after := inputs.router; objects_after := inputs.objects;
             metaInfo_after := 0%nat;
             returned := Ready {| responseData := [0x7F; 0x27; 0x11] |} |}).
Proof.
  split.
  - split; [reflexivity |].
    apply Route_negative_response. left. reflexivity.
  - split; [reflexivity |]. split; [reflexivity |].
    apply Route_negative_response. right.
    exists 2%positive, {| inputs.offered := false; inputs.handled := 0 |}.
    split; [reflexivity |]. split; reflexivity.
Defined.

Lemma Route_forwards_witness :
  mServices inputs.router !! 0x10 = Some 1%positive /\
  IsOffered <$> inputs.objects !! 1%positive = Some true /\
  exists routed,
    Route inputs.router inputs.objects 0x10 [0x10; 0x03] 0%nat tt = Some routed /\
    returned routed = Ready {| responseData := [0x50; 0x03] |} /\
    metaInfo_after routed = 1%nat.
Proof.
  pose (object := {| inputs.offered := true; inputs.handled := 0 |}).
  assert (Hfind : mServices inputs.router !! 0x10 = Some 1%positive)
    by reflexivity.
  assert (Hobject : inputs.objects !! 1%positive = Some object)
    by reflexivity.
  assert (Hoffered : IsOffered object = true) by reflexivity.
  destruct (Route_forwards inputs.router inputs.objects 0x10 [0x10; 0x03]
              0%nat tt 1%positive object Hfind Hobject Hoffered)
    as (routed & Hroute & Hreturned & HmetaInfo & _).
  split; [exact Hfind |]. split; [reflexivity |].
  exists routed. exact (conj Hroute (conj Hreturned HmetaInfo)).
Defined.

Lemma Route_keeps_registry_witness :
  (forall service,
      mServices inputs.router !! 0x10 = Some service ->
      is_Some (inputs.objects !! service)) /\
  exists routed,
    Route inputs.router inputs.objects 0x10 [0x10; 0x03] 0%nat tt = Some routed /\
    mServices (router_after routed) = mServices inputs.router.
Proof.
  assert (Hvalid : forall service,
             mServices inputs.router !! 0x10 = Some service ->
             is_Some (inputs.objects !! service)).
  { intros service Hfind. vm_compute in Hfind.
    injection Hfind as <-. eexists. reflexivity. }
  destruct (Route_keeps_registry inputs.router inputs.objects 0x10
              [0x10; 0x03] 0%nat tt Hvalid)
    as (routed & Hroute & Hsame & _).
  split; [exact Hvalid |].
  exists routed. exact (conj Hroute Hsame).
Defined.

End UdsServiceRouterExamples.

(** ** ara::core::Optional *)

Section Optional.
Import core.
Context {T : Type}.

(** Reading an [Optional] without a value throws, whichever accessor is
    used. *)
Lemma no_value_throws (self : Optional T) :
  HasValue self = false ->
  Value self = Throws no_value /\
  operator_star self = Throws no_value /\
  operator_arrow self = Throws no_value.
Proof.
  unfold HasValue, Value, operator_star, operator_arrow. by intros ->.
Qed.

(** [Value] and [operator*] give the value that is held. *)
Lemma value_returned (self : Optional T) :
  HasValue self = true ->
  Value self = Returns (mValue self) /\
  operator_star self = Returns (mValue self).
Proof. unfold HasValue, Value, operator_star. by intros ->. Qed.

(** [operator->] never returns: it throws or flows off its end. *)
Lemma operator_arrow_never_returns (self : Optional T) (value : T) :
  operator_arrow self <> Returns value.
Proof. unfold operator_arrow. by destruct (mHasValue self). Qed.

Lemma ValueOr_default (self : Optional T) (defaultValue : T) :
  HasValue self = false -> ValueOr self defaultValue = defaultValue.
Proof. unfold HasValue, ValueOr. by intros ->. Qed.

(** C9: an [Optional] without a value throws at every accessor, and one with
    a value should give it back from [Value()], [operator*] and
    [operator->].  With a value, [Value()] and [operator*] do return it, but
    [operator->] reaches the end of the function without returning
    anything. *)
Theorem operator_arrow_returns_nothing (self : Optional T) :
  HasValue self = true ->
  Value self = Returns (mValue self) /\
  operator_star self = Returns (mValue self) /\
  operator_arrow self = FlowsOffTheEnd /\
  operator_arrow self <> Returns (mValue self).
Proof.
  intros Hhas.
  destruct (value_returned self Hhas) as [HValue Hstar].
  split; [exact HValue |]. split; [exact Hstar |].
  unfold HasValue in Hhas. unfold operator_arrow. rewrite Hhas.
  split; [reflexivity | discriminate].
Qed.

End Optional.

Lemma operator_arrow_returns_nothing_witness :
  core.HasValue (core.Optional_of 5%Z) = true /\
  core.Value (core.Optional_of 5%Z) = core.Returns 5%Z /\
  core.operator_arrow (core.Optional_of 5%Z) = core.FlowsOffTheEnd.
Proof.
  destruct (operator_arrow_returns_nothing (core.Optional_of 5%Z) eq_refl)
    as (HValue & _ & Harrow & _).
  exact (conj eq_refl (conj HValue Harrow)).
Defined.

(** * Further properties *)

(** ** ara::core::Optional: the remaining members *)

Section OptionalMemberFacts.
Import core.
Context {T : Type}.
Variable default_T : T.
Variable moved_from : T -> T.
Variable T_of_bool : bool -> T.
Variable T_eq T_ne : T -> T -> bool.

Lemma Value_of_flag (self : Optional T) :
  Value self =
  if HasValue self then Returns (mValue self) else Throws no_value.
Proof. reflexivity. Qed.

(** X1: [Swap] exchanges what the two objects read as, whether both, one or
    none of them holds a value and whatever a moved-from [T] is left as;
    swapping twice gives back what each read as at first. *)
Theorem Swap_exchanges (self other : Optional T) :
  let swapped := Swap moved_from self other in
  let back := Swap moved_from swapped.1 swapped.2 in
  Value swapped.1 = Value other /\ Value swapped.2 = Value self /\
  HasValue swapped.1 = HasValue other /\ HasValue swapped.2 = HasValue self /\
  Value back.1 = Value self /\ Value back.2 = Value other.
Proof.
  destruct self as [v hasv], other as [w hasw].
  destruct hasv, hasw; cbv zeta; unfold Swap; cbn; repeat split.
Qed.

(** X2: assigning one [Optional] to another, by copy or by move, never
    changes whether the target holds a value: an empty target stays empty
    and still throws when read, and a target with a value reads afterwards
    as the converted flag of the source, not as the source's value. *)
Theorem assignment_keeps_HasValue (self other : Optional T) :
  let assigned := assign_copy T_of_bool self other in
  HasValue assigned = HasValue self /\
  assign_move T_of_bool self other = (assigned, other) /\
  Value assigned =
    (if HasValue self
     then Returns (if HasValue other then T_of_bool true else mValue self)
     else Throws no_value).
Proof.
  destruct self as [v hasv], other as [w hasw].
  destruct hasv, hasw; repeat split.
Qed.

(** X3: a value assigned or emplaced is the value read back by every
    accessor that returns, whatever the object held before; after [Reset]
    the reading accessors throw and [ValueOr] gives the default. *)
Theorem written_value_is_read {U : Type} (cast : U -> T)
    (self : Optional T) (value : U) (emplaced defaultValue : T) :
  Value (assign_value cast self value) = Returns (cast value) /\
  operator_star (assign_value cast self value) = Returns (cast value) /\
  ValueOr (assign_value cast self value) defaultValue = cast value /\
  Value (Emplace self emplaced) = Returns emplaced /\
  ValueOr (Emplace self emplaced) defaultValue = emplaced /\
  Value (Reset (Emplace self emplaced)) = Throws no_value /\
  operator_star (Reset (Emplace self emplaced)) = Throws no_value /\
  operator_arrow (Reset (Emplace self emplaced)) = Throws no_value /\
  ValueOr (Reset (Emplace self emplaced)) defaultValue = defaultValue.
Proof. repeat split. Qed.

(** X4: [operator==] always completes, although it is [noexcept] and reads
    through the throwing [Value()]: two objects with values compare as their
    values do, two without compare equal whatever is left in their storage,
    and one with and one without compare unequal. *)
Theorem operator_eq_completes (lhs rhs : Optional T) :
  operator_eq T_eq lhs rhs =
  Completes (if HasValue lhs
             then (if HasValue rhs then T_eq (mValue lhs) (mValue rhs)
                   else false)
             else negb (HasValue rhs)) /\
  operator_eq T_eq (Reset lhs) (Reset rhs) = Completes true /\
  operator_eq T_eq (Reset lhs) (Emplace rhs (mValue lhs)) = Completes false.
Proof.
  destruct lhs as [v hasv], rhs as [w hasw].
  destruct hasv, hasw; repeat split.
Qed.

Lemma operator_ne_completes (lhs rhs : Optional T) :
  operator_ne T_ne lhs rhs =
  Completes (if HasValue lhs
             then (if HasValue rhs then T_ne (mValue lhs) (mValue rhs)
                   else true)
             else HasValue rhs).
Proof.
  destruct lhs as [v hasv], rhs as [w hasw].
  by destruct hasv, hasw.
Qed.

(** X5: when [T]'s [!=] is the negation of its [==], [operator!=] on
    [Optional] answers the opposite of [operator==]. *)
Theorem operator_ne_negates_eq (lhs rhs : Optional T) :
  (forall a b, T_ne a b = negb (T_eq a b)) ->
  exists equal,
    operator_eq T_eq lhs rhs = Completes equal /\
    operator_ne T_ne lhs rhs = Completes (negb equal).
Proof.
  intros Hne. eexists. split; [apply operator_eq_completes |].
  rewrite operator_ne_completes.
  destruct (HasValue lhs), (HasValue rhs); cbn; [| done ..].
  by rewrite Hne.
Qed.

(** X6: when [T]'s [==] is an equivalence, so is [operator==] on
    [Optional]: every object equals itself, the order of the operands does
    not matter, and equality passes along a chain. *)
Theorem operator_eq_equivalence (a b c : Optional T) :
  (forall x, T_eq x x = true) ->
  (forall x y, T_eq x y = T_eq y x) ->
  (forall x y z, T_eq x y = true -> T_eq y z = true -> T_eq x z = true) ->
  operator_eq T_eq a a = Completes true /\
  operator_eq T_eq a b = operator_eq T_eq b a /\
  (operator_eq T_eq a b = Completes true ->
   operator_eq T_eq b c = Completes true ->
   operator_eq T_eq a c = Completes true).
Proof.
  intros Hrefl Hsym Htrans.
  destruct a as [x hasx], b as [y hasy], c as [z hasz].
  split; [| split].
  - destruct hasx; cbn; [by rewrite Hrefl | done].
  - destruct hasx, hasy; cbn; try done. by rewrite Hsym.
  - destruct hasx, hasy, hasz; cbn; try done.
    intros Hxy Hyz. simplify_eq. f_equal. by eapply Htrans.
Qed.

(** X7: a copy and a moved-to object read as the original did; the object
    moved from still reports a value when it had one, and reads as whatever
    the move left in it. *)
Theorem copy_and_move_construct (other : Optional T) :
  let copy := Optional_copy default_T other in
  let moved := Optional_move default_T moved_from other in
  Value copy = Value other /\
  Value moved.1 = Value other /\
  HasValue moved.2 = HasValue other /\
  Value moved.2 =
    (if HasValue other then Returns (moved_from (mValue other))
     else Throws no_value).
Proof. destruct other as [v hasv]. by destruct hasv. Qed.

End OptionalMemberFacts.

Lemma operator_ne_negates_eq_witness :
  (forall a b : Z, negb (a =? b)%Z = negb (a =? b)%Z) /\
  core.operator_eq Z.eqb (core.Optional_of 5%Z) (core.Optional_of 7%Z) =
    core.Completes false /\
  core.operator_ne (fun a b => negb (a =? b)%Z)
    (core.Optional_of 5%Z) (core.Optional_of 7%Z) = core.Completes true.
Proof.
  assert (Hne : forall a b : Z, negb (a =? b)%Z = negb (a =? b)%Z)
    by reflexivity.
  destruct (operator_ne_negates_eq Z.eqb (fun a b => negb (a =? b)%Z)
              (core.Optional_of 5%Z) (core.Optional_of 7%Z) Hne)
    as (equal & Heq & Hnot).
  cbv in Heq. injection Heq as <-.
  exact (conj Hne (conj eq_refl Hnot)).
Defined.

Lemma operator_eq_equivalence_witness :
  (forall x : Z, (x =? x)%Z = true) /\
  core.operator_eq Z.eqb (core.Optional_of 5%Z) (core.Optional_of 5%Z) =
    core.Completes true /\
  core.operator_eq Z.eqb (core.Optional_empty 0%Z) (core.Optional_of 5%Z) =
    core.operator_eq Z.eqb (core.Optional_of 5%Z) (core.Optional_empty 0%Z).
Proof.
  assert (Hrefl : forall x : Z, (x =? x)%Z = true) by apply Z.eqb_refl.
  assert (Hsym : forall x y : Z, (x =? y)%Z = (y =? x)%Z) by apply Z.eqb_sym.
  assert (Htrans : forall x y z : Z,
             (x =? y)%Z = true -> (y =? z)%Z = true -> (x =? z)%Z = true).
  { intros x y z Hxy Hyz. apply Z.eqb_eq in Hxy, Hyz. apply Z.eqb_eq. lia. }
  destruct (operator_eq_equivalence Z.eqb (core.Optional_of 5%Z)
              (core.Optional_of 5%Z) (core.Optional_of 5%Z) Hrefl Hsym Htrans)
    as (Hself & _ & _).
  destruct (operator_eq_equivalence Z.eqb (core.Optional_empty 0%Z)
              (core.Optional_of 5%Z) (core.Optional_of 5%Z) Hrefl Hsym Htrans)
    as (_ & Hswap & _).
  exact (conj Hrefl (conj Hself Hswap)).
Defined.

(** ** The UDS service router: construction and the service objects *)

Section UdsServiceRouterFacts.
Import routing.
Local Open Scope Z_scope.
Context {InstanceSpecifier Service MetaInfo CancellationHandler : Type}.
Context `{!RoutableUdsService Service MetaInfo CancellationHandler}.

Implicit Types (self : UdsServiceRouter InstanceSpecifier).
Implicit Types (objects : gmap positive Service).
Implicit Types (sid : Z) (requestData : list Z) (metaInfo : MetaInfo).
Implicit Types (cancellationHandler : CancellationHandler).

(** X8: a router as its constructor leaves it has no service registered:
    whatever the SID, the request and the service objects that exist,
    [Route] answers with the ready negative response [0x7F, sid, 0x11]
    and calls no service. *)
Theorem constructed_router_rejects
    (specifier : InstanceSpecifier)
    objects sid requestData metaInfo cancellationHandler :
  Route (construct specifier) objects sid requestData metaInfo
    cancellationHandler =
  Some {| router_after := construct specifier; objects_after := objects;
          metaInfo_after := metaInfo;
          returned := Ready {| responseData := [0x7F; sid; 0x11] |} |}.
Proof.
  unfold Route, construct. cbn [mServices].
  by rewrite lookup_empty.
Qed.


End UdsServiceRouterFacts.


(** ** The client state machine: the other handlers of ServiceReadyState *)

Section ServiceReadyStateFacts.
Import fsm.
Local Open Scope Z_scope.

Ltac run :=
  unfold InitialWaitPhase_ServiceOffered, InitialWaitPhase_ServiceStopped,
    ServiceSeen_ServiceStopped, Transit_other, Activate,
    ServiceReadyState.Activate, ServiceReadyState.ServiceNotRequested,
    ServiceReadyState.ServiceStopped, ServiceReadyState.ServiceOffered,
    ServiceReadyState.onTimerExpired, ServiceReadyState.Transit,
    ServiceReadyState.Deactivate, Deactivate_other, seq, cond, skip in *;
  cbn in *.

(** X10: as long as the state has not been activated,
    [ServiceNotRequested] only clears the request flag: the current state,
    the timer with its callback, the waiter and the activation flag are
    left alone, and a second call changes nothing more. *)
Theorem ServiceNotRequested_before_activation (m : Machine) :
  mActivated m = false ->
  let m' := ServiceReadyState.ServiceNotRequested m in
  mClientRequested m' = false /\
  mCurrentState m' = mCurrentState m /\
  Timer m' = Timer m /\
  mNotifications m' = mNotifications m /\
  mActivated m' = false /\
  mReadyStateAlive m' = mReadyStateAlive m /\
  ServiceReadyState.ServiceNotRequested m' = m'.
Proof.
  intros Hidle. run. rewrite Hidle. cbn. rewrite Hidle. by repeat split.
Qed.

(** X11: a request withdrawn before activation is honoured once: the next
    activation passes the machine on to ServiceSeen and puts both flags back
    to what the constructor set, so that the activation after that one
    stays in ServiceReady, activated. *)
Theorem withdrawn_request_defers_once
    (m : Machine) (previous previous' : SdClientState) :
  mActivated m = false ->
  let passed_on :=
    ServiceReadyState.Activate previous
      (set_mCurrentState ServiceReady
         (ServiceReadyState.ServiceNotRequested m)) in
  let again :=
    ServiceReadyState.Activate previous'
      (set_mCurrentState ServiceReady passed_on) in
  (mCurrentState passed_on = ServiceSeen /\
   mActivated passed_on = false /\ mClientRequested passed_on = true) /\
  (mCurrentState again = ServiceReady /\
   mActivated again = true /\ mClientRequested again = true /\
   mOnExpired (Timer again) = Some ReadyState_onTimerExpired).
Proof.
  intros Hidle. run. rewrite Hidle. cbn. by repeat split.
Qed.

(** X12: however [ServiceReadyState] leaves ServiceReady (the client no
    longer requesting an activated service, the service withdrawn, the lease
    expired), the machine is then in the state named by the handler, no
    expiration callback is registered, and the two flags are back to what
    the constructor set. *)
Theorem leaving_ServiceReady_resets (m : Machine) :
  mActivated m = true ->
  let left_as (m' : Machine) (state : SdClientState) :=
    mCurrentState m' = state /\ mOnExpired (Timer m') = None /\
    mActivated m' = mActivated (ServiceReadyState.construct (Timer m)) /\
    mClientRequested m' =
      mClientRequested (ServiceReadyState.construct (Timer m)) in
  left_as (ServiceReadyState.ServiceNotRequested m) ServiceSeen /\
  left_as (ServiceReadyState.ServiceStopped m) Stopped /\
  left_as (ServiceReadyState.onTimerExpired m) InitialWaitPhase.
Proof.
  intros Hactive. cbv zeta. run. rewrite Hactive. cbn. by repeat split.
Qed.

(** With no callback registered, the timer's events leave the state and
    the activation flag alone. *)
Lemma timer_events_flags (es : list TimerEvent) (m : Machine) :
  mOnExpired (Timer m) = None ->
  exists m',
    timer_events es m = Fine m' /\
    mOnExpired (Timer m') = None /\
    mCurrentState m' = mCurrentState m /\
    mActivated m' = mActivated m.
Proof.
  revert m. induction es as [| e es IH]; intros m Hnone; [by exists m |].
  assert (exists m1, timer_event e m = Fine m1 /\
            mOnExpired (Timer m1) = None /\
            mCurrentState m1 = mCurrentState m /\
            mActivated m1 = mActivated m) as (m1 & He & Hnone1 & Hs & Ha).
  { destruct e as [| ttl |]; cbn; [| by eexists ..].
    unfold TimerExpired. rewrite Hnone.
    destruct (mCountdown (Timer m)); by eexists. }
  destruct (IH m1 Hnone1) as (m' & Hrun & ? & Hs' & Ha').
  exists m'. cbn [timer_events]. rewrite He.
  by rewrite Hs', Ha', Hs, Ha.
Qed.

(** X13: once [ServiceStopped] has run, nothing the timer does afterwards
    (expiring, being restarted or cancelled by another holder) moves the
    machine out of Stopped or reaches the state object. *)
Theorem stopped_machine_ignores_timer (m : Machine) (es : list TimerEvent) :
  exists m',
    timer_events es (ServiceReadyState.ServiceStopped m) = Fine m' /\
    mCurrentState m' = Stopped /\
    mOnExpired (Timer m') = None /\
    mActivated m' = false.
Proof.
  destruct (timer_events_flags es (ServiceReadyState.ServiceStopped m) eq_refl)
    as (m' & Hrun & Hnone & Hstate & Hactivated).
  exists m'. by repeat split.
Qed.

(** X14: a renewed offer only restarts the countdown at the new TTL: the
    state, the flags and the registered callback stay, the last of several
    renewals decides the TTL, and the lease of an activated machine that
    was renewed still ends in InitialWaitPhase when it expires. *)
Theorem renewed_offer_restarts_lease (m : Machine) (ttl ttl' : Z) :
  mOnExpired (Timer m) = Some ReadyState_onTimerExpired ->
  mReadyStateAlive m = true ->
  let renewed := ServiceReadyState.ServiceOffered ttl' m in
  ServiceReadyState.ServiceOffered ttl'
    (ServiceReadyState.ServiceOffered ttl m) = renewed /\
  mCountdown (Timer renewed) = Some ttl' /\
  mOnExpired (Timer renewed) = mOnExpired (Timer m) /\
  mCurrentState renewed = mCurrentState m /\
  mActivated renewed = mActivated m /\
  mClientRequested renewed = mClientRequested m /\
  exists m',
    TimerExpired renewed = Fine m' /\
    mCurrentState m' = InitialWaitPhase /\
    mOnExpired (Timer m') = None.
Proof.
  intros Hcallback Halive renewed. repeat split.
  exists (ServiceReadyState.onTimerExpired (on_Timer TtlTimer_Cancel renewed)).
  split; [| done].
  unfold TimerExpired. subst renewed. cbn. by rewrite Hcallback, Halive.
Qed.

End ServiceReadyStateFacts.

Lemma ServiceNotRequested_before_activation_witness :
  fsm.mActivated inputs.waiting = false /\
  fsm.mClientRequested inputs.waiting = true /\
  fsm.mClientRequested (fsm.ServiceReadyState.ServiceNotRequested inputs.waiting)
    = false /\
  fsm.mCurrentState (fsm.ServiceReadyState.ServiceNotRequested inputs.waiting)
    = fsm.InitialWaitPhase.
Proof.
  destruct (ServiceNotRequested_before_activation inputs.waiting eq_refl)
    as (Hflag & Hstate & _).
  exact (conj eq_refl (conj eq_refl (conj Hflag Hstate))).
Defined.

Lemma withdrawn_request_defers_once_witness :
  fsm.mActivated inputs.waiting = false /\
  fsm.mCurrentState
    (fsm.ServiceReadyState.Activate fsm.InitialWaitPhase
       (fsm.set_mCurrentState fsm.ServiceReady
          (fsm.ServiceReadyState.ServiceNotRequested inputs.waiting)))
    = fsm.ServiceSeen /\
  fsm.mCurrentState
    (fsm.ServiceReadyState.Activate fsm.ServiceSeen
       (fsm.set_mCurrentState fsm.ServiceReady
          (fsm.ServiceReadyState.Activate fsm.InitialWaitPhase
             (fsm.set_mCurrentState fsm.ServiceReady
                (fsm.ServiceReadyState.ServiceNotRequested inputs.waiting)))))
    = fsm.ServiceReady.
Proof.
  destruct (withdrawn_request_defers_once inputs.waiting fsm.InitialWaitPhase
              fsm.ServiceSeen eq_refl)
    as ((Hseen & _) & (Hready & _)).
  exact (conj eq_refl (conj Hseen Hready)).
Defined.

Lemma leaving_ServiceReady_resets_witness :
  fsm.mActivated inputs.ready = true /\
  fsm.mOnExpired (fsm.Timer inputs.ready) = Some fsm.ReadyState_onTimerExpired /\
  fsm.mCurrentState (fsm.ServiceReadyState.ServiceNotRequested inputs.ready)
    = fsm.ServiceSeen /\
  fsm.mOnExpired
    (fsm.Timer (fsm.ServiceReadyState.ServiceNotRequested inputs.ready)) = None /\
  fsm.mCurrentState (fsm.ServiceReadyState.ServiceStopped inputs.ready)
    = fsm.Stopped /\
  fsm.mCurrentState (fsm.ServiceReadyState.onTimerExpired inputs.ready)
    = fsm.InitialWaitPhase.
Proof.
  destruct (leaving_ServiceReady_resets inputs.ready eq_refl)
    as ((Hseen & Hnone & _) & (Hstopped & _) & (Hwaiting & _)).
  exact (conj eq_refl (conj eq_refl (conj Hseen (conj Hnone
          (conj Hstopped Hwaiting))))).
Defined.

Lemma renewed_offer_restarts_lease_witness :
  fsm.mOnExpired (fsm.Timer inputs.ready) = Some fsm.ReadyState_onTimerExpired /\
  fsm.mReadyStateAlive inputs.ready = true /\
  fsm.mCountdown (fsm.Timer inputs.ready) = Some 30%Z /\
  fsm.mCountdown
    (fsm.Timer (fsm.ServiceReadyState.ServiceOffered 45 inputs.ready))
    = Some 45%Z /\
  exists m',
    fsm.TimerExpired (fsm.ServiceReadyState.ServiceOffered 45 inputs.ready)
      = fsm.Fine m' /\
    fsm.mCurrentState m' = fsm.InitialWaitPhase.
Proof.
  destruct (renewed_offer_restarts_lease inputs.ready 40 45 eq_refl eq_refl)
    as (_ & Hcountdown & _ & _ & _ & _ & m' & Hexpired & Hstate & _).
  split; [reflexivity |]. split; [reflexivity |]. split; [reflexivity |].
  split; [exact Hcountdown |].
  exists m'. exact (conj Hexpired Hstate).
Defined.

(** ** SOME/IP: the enumerations' codes *)

Section SomeIpCodes.
Import someip.
Local Open Scope Z_scope.

(** X15: the codes of the message types and of the return codes each fit
    in a byte and tell the enumerators apart: two message types, or two
    return codes, with the same code are the same. *)
Theorem codes_tell_enumerators_apart
    (t1 t2 : SomeIpMessageType) (c1 c2 : SomeIpReturnCode) :
  is_uint8 (SomeIpMessageType_value t1) /\
  is_uint8 (SomeIpReturnCode_value c1) /\
  (SomeIpMessageType_value t1 = SomeIpMessageType_value t2 -> t1 = t2) /\
  (SomeIpReturnCode_value c1 = SomeIpReturnCode_value c2 -> c1 = c2).
Proof.
  unfold is_uint8, uint8_max. repeat split.
  - destruct t1; cbn; lia.
  - destruct t1; cbn; lia.
  - destruct c1; cbn; lia.
  - destruct c1; cbn; lia.
  - destruct t1, t2; cbn; intros Hcode; first [reflexivity | discriminate Hcode].
  - destruct c1, c2; cbn; intros Hcode; first [reflexivity | discriminate Hcode].
Qed.

(** X16: the code of each transfer-protocol message type is the code of
    the plain type with bit 0x20 set, and the types that answer a request
    are those whose code has bit 0x80 set. *)
Theorem message_type_flag_bits (t : SomeIpMessageType) :
  (Z.testbit (SomeIpMessageType_value t) 5 = true <->
   t = TpRequest \/ t = TpRequestNoReturn \/ t = TpNotification \/
   t = TpResponse \/ t = TpError) /\
  (Z.testbit (SomeIpMessageType_value t) 7 = true <->
   t = Response \/ t = Error \/ t = TpResponse \/ t = TpError) /\
  (exists plain,
      Z.lor (SomeIpMessageType_value plain) 0x20 =
        Z.lor (SomeIpMessageType_value t) 0x20 /\
      Z.testbit (SomeIpMessageType_value plain) 5 = false).
Proof.
  repeat split.
  - destruct t; cbn; intros Hbit; first [discriminate Hbit | tauto].
  - intros Hcase. by decompose [or] Hcase; subst.
  - destruct t; cbn; intros Hbit; first [discriminate Hbit | tauto].
  - intros Hcase. by decompose [or] Hcase; subst.
  - destruct t;
      first [ by exists Request | by exists RequestNoReturn
            | by exists Notification | by exists Response | by exists Error ].
Qed.

End SomeIpCodes.
